(** * A shallow embedding of [monaifbs/fetal_brain_seg.py]

    The script resolves a YAML configuration, substitutes the bundled
    checkpoint path, and then, for every (input, output) pair, prepares the
    output folder, calls the external [run_inference] and moves the file the
    inference wrote to the requested output name.

    Modelling choices:
    - Python strings are [string]; the [posixpath] helpers [basename],
      [dirname] and [join] are written out from CPython's source.
    - A YAML document is the inductive [yval]; a Python [dict] is an
      association list kept in insertion order, and [d[k] = v] replaces the
      value in place or appends a new key, as CPython's dict does.
    - The file system is two [gset string]s (regular files and directories),
      addressed by literal path strings.
    - The program runs in a state and exception monad over the file system
      and the trace of the calls made to [run_inference]. The configuration
      object is shared with [run_inference], which may mutate it: the
      external routine returns the (possibly mutated) configuration.
    - The package directory, the working directory, the YAML loader and the
      inference routine are external; they are section variables. *)

From Stdlib Require Import Ascii.
From stdpp Require Import base gmap strings list.

Open Scope string_scope.

(** ** Strings and [posixpath] *)

Module PyStr.

(** [pat in s] *)
Fixpoint contains (pat s : string) : bool :=
  String.prefix pat s ||
  match s with
  | EmptyString => false
  | String _ s' => contains pat s'
  end.

(** [s[:-k]] for [k > 0]: the empty string when [len(s) < k]. *)
Definition drop_end (k : nat) (s : string) : string :=
  String.substring 0 (String.length s - k) s.

Definition startswith_slash (s : string) : bool :=
  match s with
  | String c _ => Ascii.eqb c "/"%char
  | EmptyString => false
  end.

Definition endswith_slash (s : string) : bool :=
  match String.list_ascii_of_string s with
  | [] => false
  | l => match last l with Some c => Ascii.eqb c "/"%char | None => false end
  end.

End PyStr.

Module PosixPath.

Definition is_slash (c : ascii) : bool := Ascii.eqb c "/"%char.

(** [i = p.rfind('/') + 1; (p[:i], p[i:])] *)
Fixpoint split_last_slash (l : list ascii) : list ascii * list ascii :=
  match l with
  | [] => ([], [])
  | c :: t =>
      match split_last_slash t with
      | ([], _) => if is_slash c then ([c], t) else ([], c :: t)
      | (h, tl) => (c :: h, tl)
      end
  end.

Fixpoint drop_slashes (l : list ascii) : list ascii :=
  match l with
  | c :: t => if is_slash c then drop_slashes t else l
  | [] => []
  end.

(** [head.rstrip('/')] *)
Definition rstrip_slash (l : list ascii) : list ascii :=
  rev (drop_slashes (rev l)).

(** [os.path.basename] *)
Definition basename (p : string) : string :=
  String.string_of_list_ascii (snd (split_last_slash (String.list_ascii_of_string p))).

(** [os.path.dirname]:
    [head = p[:i]; if head and head != sep*len(head): head = head.rstrip(sep)] *)
Definition dirname (p : string) : string :=
  let head := fst (split_last_slash (String.list_ascii_of_string p)) in
  String.string_of_list_ascii
    (if negb (forallb is_slash head) then rstrip_slash head else head).

(** One step of [os.path.join]:
    [if b.startswith(sep): path = b
     elif not path or path.endswith(sep): path += b
     else: path += sep + b] *)
Definition join2 (path b : string) : string :=
  if PyStr.startswith_slash b then b
  else if String.eqb path "" || PyStr.endswith_slash path then path +:+ b
  else path +:+ "/" +:+ b.

(** [os.path.join( *[a, b, ...])] *)
Definition join (a : string) (bs : list string) : string :=
  fold_left join2 bs a.

(** [p.split('/')] on characters, [cur] holding the current component
    reversed. *)
Fixpoint split_slash (l cur : list ascii) : list (list ascii) :=
  match l with
  | [] => [rev cur]
  | c :: t => if is_slash c then rev cur :: split_slash t [] else split_slash t (c :: cur)
  end.

(** An empty, ["."] or [".."] component. *)
Definition bad_component (c : list ascii) : bool :=
  match c with
  | [] => true
  | [a] => Ascii.eqb a "."%char
  | [a; b] => Ascii.eqb a "."%char && Ascii.eqb b "."%char
  | _ => false
  end.

(** A path in the form [os.path.normpath] gives it (other than ["/"]):
    non-empty, no empty, ["."] or [".."] component, no trailing slash.
    The file system is modelled with literal path strings; for such paths
    two strings name the same entry exactly when they are equal. *)
Definition normal_path (p : string) : bool :=
  let l := String.list_ascii_of_string p in
  let body := match l with c :: t => if is_slash c then t else l | [] => [] end in
  negb (String.eqb p "") && forallb (fun c => negb (bad_component c)) (split_slash body []).

End PosixPath.

(** ** YAML values and Python dicts *)

Set Warnings "-register-all".

(** What [yaml.load] returns: strings, integers, [None], lists and
    mappings (with string keys). *)
Inductive yval :=
| YStr (s : string)
| YInt (z : Z)
| YNone
| YList (l : list yval)
| YMap (d : list (string * yval)).

(** The Python exceptions the script can raise. *)
Inductive exn :=
| FileNotFoundError (msg : string)
| FileExistsError (msg : string)
| NotADirectoryError (msg : string)
| IsADirectoryError (msg : string)
| OSError (msg : string)
| AssertionError (msg : string)
| KeyError (key : string)
| TypeError
| YAMLError
| InferenceError (msg : string).

Module Dict.

Fixpoint lookup (d : list (string * yval)) (k : string) : option yval :=
  match d with
  | [] => None
  | (k', v) :: t => if String.eqb k' k then Some v else lookup t k
  end.

(** [d[k] = v]: an existing key keeps its position. *)
Fixpoint set (d : list (string * yval)) (k : string) (v : yval)
  : list (string * yval) :=
  match d with
  | [] => [(k, v)]
  | (k', v') :: t => if String.eqb k' k then (k', v) :: t else (k', v') :: set t k v
  end.

End Dict.

(** [c[k]] *)
Definition getitem (c : yval) (k : string) : exn + yval :=
  match c with
  | YMap d => match Dict.lookup d k with Some v => inr v | None => inl (KeyError k) end
  | _ => inl TypeError
  end.

(** [c[k] = v] *)
Definition setitem (c : yval) (k : string) (v : yval) : exn + yval :=
  match c with
  | YMap d => inr (YMap (Dict.set d k v))
  | _ => inl TypeError
  end.

(** A value used as an operand of [str + ...]. *)
Definition as_str (v : yval) : exn + string :=
  match v with YStr s => inr s | _ => inl TypeError end.

(** [v == "default"] *)
Definition is_default (v : yval) : bool :=
  match v with YStr s => String.eqb s "default" | _ => false end.

(** ** File system *)

Record FS := mkFS { fs_files : gset string; fs_dirs : gset string }.

Definition isfile (fs : FS) (p : string) : bool := bool_decide (p ∈ fs_files fs).
Definition isdir (fs : FS) (p : string) : bool := bool_decide (p ∈ fs_dirs fs).
(** [os.path.exists] *)
Definition path_exists (fs : FS) (p : string) : bool := isfile fs p || isdir fs p.

(** Some entry lies strictly below directory [d]. *)
Definition has_children (fs : FS) (d : string) : bool :=
  existsb (String.prefix (d +:+ "/"))
    (elements (fs_files fs) ++ elements (fs_dirs fs)).


(** The parent of [p] is an existing directory (the empty parent is the
    working directory); otherwise the POSIX error. *)
Definition check_parent (fs : FS) (p : string) : option exn :=
  let par := PosixPath.dirname p in
  if String.eqb par "" || isdir fs par then None
  else if isfile fs par then Some (NotADirectoryError p)
  else Some (FileNotFoundError p).

(** [os.mkdir] *)
Definition mkdir (p : string) (fs : FS) : exn + FS :=
  if path_exists fs p then inl (FileExistsError p)
  else match check_parent fs p with
       | Some e => inl e
       | None => inr (mkFS (fs_files fs) ({[p]} ∪ fs_dirs fs))
       end.

(** [os.rmdir] *)
Definition rmdir (p : string) (fs : FS) : exn + FS :=
  if isdir fs p then
    if has_children fs p then inl (OSError p)
    else inr (mkFS (fs_files fs) (fs_dirs fs ∖ {[p]}))
  else if isfile fs p then inl (NotADirectoryError p)
  else inl (FileNotFoundError p).

(** Moves [src] or the subtree below it to [dst]. *)
Definition move_path (src dst p : string) : string :=
  if String.eqb p src then dst
  else if String.prefix (src +:+ "/") p
  then dst +:+ String.substring (String.length src) (String.length p - String.length src) p
  else p.

(** [os.rename] on POSIX: renaming a path to itself does nothing; a file
    replaces an existing file at [dst]; a directory replaces an absent or
    empty directory at [dst] and cannot move below itself. *)
Definition rename (src dst : string) (fs : FS) : exn + FS :=
  if String.eqb src dst && path_exists fs src then inr fs
  else if isfile fs src then
    if isdir fs dst then inl (IsADirectoryError dst)
    else match check_parent fs dst with
         | Some e => inl e
         | None => inr (mkFS ({[dst]} ∪ (fs_files fs ∖ {[src]})) (fs_dirs fs))
         end
  else if isdir fs src then
    if isfile fs dst then inl (NotADirectoryError dst)
    else if String.prefix (src +:+ "/") dst then inl (OSError dst)
    else if isdir fs dst && has_children fs dst then inl (OSError dst)
    else match check_parent fs dst with
         | Some e => inl e
         | None => inr (mkFS (set_map (move_path src dst) (fs_files fs))
                             (set_map (move_path src dst) (fs_dirs fs ∖ {[dst]})))
         end
  else inl (FileNotFoundError src).

(** ** The state and exception monad *)

(** The observable state: the file system and the trace of calls to
    [run_inference] (input path and the configuration it was given). *)
Record St := mkSt { st_fs : FS; st_calls : list (string * yval) }.

Definition M (A : Type) : Type := St -> (exn + A) * St.

Definition ret {A} (a : A) : M A := fun st => (inr a, st).
Definition raise {A} (e : exn) : M A := fun st => (inl e, st).
Definition bind {A B} (m : M A) (k : A -> M B) : M B :=
  fun st => match m st with
            | (inl e, st') => (inl e, st')
            | (inr a, st') => k a st'
            end.

Notation "x <- m ;; k" := (bind m (fun x => k))
  (at level 100, m at next level, right associativity).
Notation "m ;;; k" := (bind m (fun _ => k))
  (at level 100, right associativity).

Definition lift {A} (r : exn + A) : M A :=
  match r with inl e => raise e | inr a => ret a end.

Definition get_fs : M FS := fun st => (inr (st_fs st), st).

(** Runs a file-system operation; on failure the file system is unchanged. *)
Definition on_fs (f : FS -> exn + FS) : M unit :=
  fun st => match f (st_fs st) with
            | inl e => (inl e, st)
            | inr fs' => (inr tt, mkSt fs' (st_calls st))
            end.

(** [try: m except FileExistsError: pass] *)
Definition catch_file_exists (m : M unit) : M unit :=
  fun st => match m st with
            | (inl (FileExistsError _), st') => (inr tt, st')
            | r => r
            end.

Section Script.

(** [os.path.dirname(monaifbs.__file__)] *)
Variable pkg_dir : string.
(** [os.getcwd()] *)
Variable cwd : string.
(** [yaml.load(open(path), Loader=yaml.FullLoader)]; [None] is a parse error. *)
Variable yaml_load : FS -> string -> option yval.
(** [run_inference(input_data=img, config_info=config)]: it may fail, may
    change the file system, and may mutate the configuration it receives
    (the object is shared with the script). *)
Variable run_inference : string -> yval -> FS -> (exn + unit) * (yval * FS).

(** [os.makedirs(name)] (with [exist_ok=False]), following CPython:
<<
    head, tail = path.split(name)
    if not tail: head, tail = path.split(head)
    if head and tail and not path.exists(head):
        try: makedirs(head)
        except FileExistsError: pass
        if tail == curdir: return
    mkdir(name)
>>
    [fuel] bounds the recursion; [makedirs] gives it the length of the path,
    which every recursive call shortens. *)
Fixpoint makedirs_fuel (fuel : nat) (name : string) : M unit :=
  match fuel with
  | O => raise (OSError name)
  | S fuel' =>
      let '(head, tail) :=
        let h := PosixPath.dirname name in
        let t := PosixPath.basename name in
        if String.eqb t "" then (PosixPath.dirname h, PosixPath.basename h) else (h, t) in
      fs <- get_fs;;
      go <- (if negb (String.eqb head "") && negb (String.eqb tail "") && negb (path_exists fs head)
       then
         catch_file_exists (makedirs_fuel fuel' head) ;;;
         (if String.eqb tail "." then ret false else ret true)
       else ret true) ;;
      if go then on_fs (mkdir name) else ret tt
  end.

Definition makedirs (name : string) : M unit :=
  makedirs_fuel (S (String.length name)) name.

(** [os.path.join( *[os.path.dirname(monaifbs.__file__), "config",
    "monai_dynUnet_inference_config.yml"])] *)
Definition default_config_file : string :=
  PosixPath.join pkg_dir ["config"; "monai_dynUnet_inference_config.yml"].

(** [os.path.join( *[os.path.dirname(monaifbs.__file__), "models",
    "checkpoint_dynUnet_DiceXent.pt"])] *)
Definition default_model : string :=
  PosixPath.join pkg_dir ["models"; "checkpoint_dynUnet_DiceXent.pt"].

(** [config_file = args.config_file; if config_file is None: config_file = ...] *)
Definition effective_config_file (config_file : option string) : string :=
  match config_file with Some p => p | None => default_config_file end.

(** Lines 57-70: resolve, check, load the configuration, and substitute
    the bundled checkpoint. *)
Definition load_config (config_file : option string) : M yval :=
  let cf := effective_config_file config_file in
  fs <- get_fs;;
  (if negb (isfile fs cf)
   then raise (FileNotFoundError ("Expected config file: " +:+ cf +:+ " not found"))
   else ret tt) ;;;
  config <- (match yaml_load fs cf with Some c => ret c | None => raise YAMLError end);;
  inf <- lift (getitem config "inference");;
  m <- lift (getitem inf "model_to_load");;
  if is_default m then
    inf' <- lift (setitem inf "model_to_load" (YStr default_model));;
    lift (setitem config "inference" inf')
  else ret config.

(** [{'out_postfix': 'seg', 'out_dir': out_folder}] *)
Definition output_entry (out_folder : string) : yval :=
  YMap [("out_postfix", YStr "seg"); ("out_dir", YStr out_folder)].

(** [out_folder = os.path.dirname(seg); if not out_folder: out_folder = os.getcwd()] *)
Definition out_folder_of (seg : string) : string :=
  let d := PosixPath.dirname seg in
  if String.eqb d "" then cwd else d.

(** Lines 78-83: the output folder, created when absent, and
    [config['output']]. Returns the folder and the updated configuration. *)
Definition prepare (config : yval) (seg : string) : M (string * yval) :=
  let out_folder := out_folder_of seg in
  fs <- get_fs;;
  (if negb (path_exists fs out_folder) then makedirs out_folder else ret tt) ;;;
  config' <- lift (setitem config "output" (output_entry out_folder));;
  ret (out_folder, config').

(** Line 86: the call is recorded in the trace, then the external routine
    runs; it returns the configuration object as it left it. *)
Definition call_inference (img : string) (config : yval) : M yval :=
  fun st =>
    let '(r, (config', fs')) := run_inference img config (st_fs st) in
    let st' := mkSt fs' (st_calls st ++ [(img, config)]) in
    match r with
    | inl e => (inl e, st')
    | inr _ => (inr config', st')
    end.

End Script.

(** Lines 89-98 once the postfix is known: the stem [img_filename] and the
    path [out_filename] the inference routine is expected to have written. *)
Definition expected_output (out_folder img postfix : string) : string * string :=
  let img_filename0 := PosixPath.basename img in
  let '(img_filename, flag_zip) :=
    if PyStr.contains "gz" img_filename0
    then (PyStr.drop_end 7 img_filename0, true)
    else (PyStr.drop_end 4 img_filename0, false) in
  let out_filename :=
    if flag_zip then img_filename +:+ "_" +:+ postfix +:+ ".nii.gz"
    else img_filename +:+ "_" +:+ postfix +:+ ".nii" in
  (img_filename, PosixPath.join out_folder [img_filename; out_filename]).

(** Lines 89-108, the finalizer: read the postfix back from the (shared)
    configuration, check the expected file, rename it to [seg] and remove
    the intermediate folder. *)
Definition finalize (config : yval) (out_folder img seg : string) : M unit :=
  outp <- lift (getitem config "output");;
  pf <- lift (getitem outp "out_postfix");;
  postfix <- lift (as_str pf);;
  let '(img_filename, out_filename) := expected_output out_folder img postfix in
  fs <- get_fs;;
  (if negb (path_exists fs out_filename)
   then raise (FileNotFoundError ("Network output file " +:+ out_filename +:+
          " not found, check if the segmentation pipeline has failed"))
   else ret tt) ;;;
  on_fs (rename out_filename seg) ;;;
  fs' <- get_fs;;
  if path_exists fs' seg
  then on_fs (rmdir (PosixPath.join out_folder [img_filename]))
  else ret tt.

Section Main.

Variable pkg_dir cwd : string.
Variable yaml_load : FS -> string -> option yval.
Variable run_inference : string -> yval -> FS -> (exn + unit) * (yval * FS).

(** The body of the [for] loop (lines 78-108); returns the configuration
    object for the next iteration. *)
Definition iteration (config : yval) (img seg : string) : M yval :=
  prep <- prepare cwd config seg;;
  let '(out_folder, config1) := prep in
  config2 <- call_inference run_inference img config1;;
  finalize config2 out_folder img seg ;;;
  ret config2.

(** [for img, seg in zip(...)] *)
Fixpoint loop (config : yval) (pairs : list (string * string)) : M unit :=
  match pairs with
  | [] => ret tt
  | (img, seg) :: rest =>
      config' <- iteration config img seg;;
      loop config' rest
  end.

(** The script after argument parsing (lines 57-108). *)
Definition main (config_file : option string)
    (input_names segment_output_names : list string) : M unit :=
  config <- load_config pkg_dir yaml_load config_file;;
  (if Nat.eqb (length input_names) (length segment_output_names) then ret tt
   else raise (AssertionError "The numbers of input output filenames do not match")) ;;;
  loop config (zip input_names segment_output_names).

End Main.

(** ** Concrete collaborators

    A stand-in for the external routine, as the spec describes its contract:
    it writes [<out_dir>/<stem>/<stem>_<out_postfix><ext>], where [<ext>] is
    the input's [.nii] or [.nii.gz] extension, and leaves the configuration
    as it found it. *)

Definition ends_with (suffix s : string) : bool :=
  Nat.leb (String.length suffix) (String.length s) &&
  String.eqb (String.substring (String.length s - String.length suffix)
                (String.length suffix) s) suffix.

(** Modelled from the spec: the naming convention of the external inference
    routine (absent from this repository), "stripping a [.nii] or [.nii.gz]
    extension and appending [_<postfix>] plus the original extension",
    under [<out_dir>/<stem>]. Returns the stem and the written path. *)
Definition spec_expected_output (out_folder img postfix : string) : string * string :=
  let b := PosixPath.basename img in
  let '(stem, ext) :=
    if ends_with ".nii.gz" b then (PyStr.drop_end 7 b, ".nii.gz")
    else if ends_with ".nii" b then (PyStr.drop_end 4 b, ".nii")
    else (b, "") in
  (stem, PosixPath.join out_folder [stem; stem +:+ "_" +:+ postfix +:+ ext]).

(** Modelled from the spec: [run_inference], writing its output where the
    spec's naming convention puts it and creating the intermediate folder. *)
Definition stub_inference (img : string) (config : yval) (fs : FS)
    : (exn + unit) * (yval * FS) :=
  match getitem config "output" with
  | inr outp =>
      match getitem outp "out_dir", getitem outp "out_postfix" with
      | inr (YStr d), inr (YStr pf) =>
          let '(stem, path) := spec_expected_output d img pf in
          (inr tt, (config, mkFS ({[path]} ∪ fs_files fs)
                                 ({[PosixPath.join d [stem]]} ∪ fs_dirs fs)))
      | _, _ => (inl (InferenceError img), (config, fs))
      end
  | inl e => (inl e, (config, fs))
  end.

(** A configuration file [cfg.yml] with [model_to_load: default]. *)
Definition cfg_default : yval :=
  YMap [("inference", YMap [("model_to_load", YStr "default")])].

Definition test_yaml (fs : FS) (p : string) : option yval :=
  if String.eqb p "cfg.yml" then Some cfg_default else None.

Definition test_fs : FS := mkFS {["cfg.yml"]} {["/pkg"; "/home"]}.

Definition test_st : St := mkSt test_fs [].


(** ** Frame predicates *)

(** A computation that leaves the state alone. *)
Definition keeps_state {A} (m : M A) : Prop := forall st, snd (m st) = st.
(** A computation that does not call [run_inference]. *)
Definition keeps_calls {A} (m : M A) : Prop :=
  forall st r st', m st = (r, st') -> st_calls st' = st_calls st.

(** A computation that only creates directories: files and the trace are
    kept, and every directory present before is still present. *)
Definition only_adds_dirs {A} (m : M A) : Prop :=
  forall st r st', m st = (r, st') ->
  fs_files (st_fs st') = fs_files (st_fs st) /\
  fs_dirs (st_fs st) ⊆ fs_dirs (st_fs st') /\
  st_calls st' = st_calls st.

(** The configuration at the start of an iteration: the loaded one, or the
    loaded one with its [output] entry reassigned. *)
Definition frame_of (cfg0 config : yval) : Prop :=
  config = cfg0 \/ exists e, setitem cfg0 "output" e = inr config.

(** ** Concrete runs *)

Definition cfg_loaded : yval :=
  YMap [("inference", YMap [("model_to_load", YStr "/pkg/models/checkpoint_dynUnet_DiceXent.pt")])].

Definition demo_run : (exn + unit) * St :=
  main "/pkg" "/home" test_yaml stub_inference (Some "cfg.yml")
    ["case1.nii.gz"; "d/case2.nii"] ["out/case1_mask.nii.gz"; "case2_mask.nii"] test_st.

Definition fs_out : FS := mkFS ∅ {["out"]}.

Definition fs_case1 : FS := mkFS {["out/case1/case1_seg.nii.gz"]} {["out"; "out/case1"]}.

(** An inference routine that always fails, as a crashing model would. *)
Definition failing_inference (img : string) (config : yval) (fs : FS)
    : (exn + unit) * (yval * FS) :=
  (inl (InferenceError img), (config, fs)).


(** The configuration as the loop leaves it for an output folder [out]. *)
Definition cfg_out : yval := YMap [("output", output_entry "out")].

(** A loader for which every file is an empty document. *)
Definition empty_yaml (fs : FS) (p : string) : option yval := Some YNone.

(** Three inputs; the second one's name contains ["gz"] although it is not
    compressed. *)
Definition gz_name_run : (exn + unit) * St :=
  main "/pkg" "/home" test_yaml stub_inference (Some "cfg.yml")
    ["case1.nii.gz"; "sub-gz01_T2w.nii"; "case3.nii"]
    ["out/case1_mask.nii.gz"; "out/sub01_mask.nii"; "out/case3_mask.nii"] test_st.

Definition finalize_run : (exn + unit) * St :=
  finalize cfg_out "out" "case1.nii.gz" "out/case1_mask.nii.gz" (mkSt fs_case1 []).

Definition makedirs_run : (exn + unit) * St :=
  makedirs "a/b/c" (mkSt (mkFS ∅ ∅) []).

Definition prepare_run : (exn + string * yval) * St :=
  prepare "/home" cfg_loaded "out/a/x_mask.nii" (mkSt fs_out []).

(** ** Facts about the embedding *)

Module Facts.
Local Open Scope list_scope.

Lemma dict_lookup_set_eq d k v : Dict.lookup (Dict.set d k v) k = Some v.
Proof.
  induction d as [|[k' v'] d IH]; simpl.
  - by rewrite String.eqb_refl.
  - destruct (String.eqb_spec k' k) as [->|Hne]; simpl.
    + by rewrite String.eqb_refl.
    + apply String.eqb_neq in Hne. by rewrite Hne.
Qed.

Lemma dict_lookup_set_ne d k k' v :
  k' ≠ k -> Dict.lookup (Dict.set d k v) k' = Dict.lookup d k'.
Proof.
  intros Hne. induction d as [|[k0 v0] d IH]; simpl.
  - destruct (String.eqb_spec k k'); [congruence|done].
  - destruct (String.eqb_spec k0 k) as [->|Hk]; simpl.
    + destruct (String.eqb_spec k k'); [congruence|done].
    + by rewrite IH.
Qed.

Lemma dict_set_set d k v1 v2 : Dict.set (Dict.set d k v1) k v2 = Dict.set d k v2.
Proof.
  induction d as [|[k0 v0] d IH]; simpl.
  - by rewrite String.eqb_refl.
  - destruct (String.eqb_spec k0 k) as [->|Hk]; simpl.
    + by rewrite String.eqb_refl.
    + apply String.eqb_neq in Hk. by rewrite Hk, IH.
Qed.

Lemma getitem_setitem c k v c' : setitem c k v = inr c' -> getitem c' k = inr v.
Proof.
  destruct c; simpl; intros H; inversion H; subst. simpl.
  by rewrite dict_lookup_set_eq.
Qed.

Lemma getitem_setitem_ne c k k' v c' :
  k' ≠ k -> setitem c k v = inr c' -> getitem c' k' = getitem c k'.
Proof.
  intros Hne. destruct c; simpl; intros H; inversion H; subst. simpl.
  by rewrite dict_lookup_set_ne.
Qed.

Lemma setitem_setitem c k v1 v2 c1 :
  setitem c k v1 = inr c1 -> setitem c1 k v2 = setitem c k v2.
Proof.
  destruct c; simpl; intros H; inversion H; subst. simpl.
  by rewrite dict_set_set.
Qed.


Lemma ret_keeps_state {A} (a : A) : keeps_state (ret a).
Proof. done. Qed.
Lemma raise_keeps_state {A} e : keeps_state (@raise A e).
Proof. done. Qed.
Lemma get_fs_keeps_state : keeps_state get_fs.
Proof. done. Qed.
Lemma lift_keeps_state {A} (r : exn + A) : keeps_state (lift r).
Proof. by destruct r. Qed.
Lemma bind_keeps_state {A B} (m : M A) (k : A -> M B) :
  keeps_state m -> (forall a, keeps_state (k a)) -> keeps_state (bind m k).
Proof.
  intros Hm Hk st. unfold bind. specialize (Hm st).
  destruct (m st) as [[e|a] st']; simpl in *; subst; [done|apply Hk].
Qed.

Lemma keeps_state_calls {A} (m : M A) : keeps_state m -> keeps_calls m.
Proof. intros H st r st' E. specialize (H st). rewrite E in H. simpl in H. by subst. Qed.
Lemma on_fs_keeps_calls f : keeps_calls (on_fs f).
Proof. intros st r st' E. unfold on_fs in E. destruct (f (st_fs st)); by inversion E. Qed.
Lemma bind_keeps_calls {A B} (m : M A) (k : A -> M B) :
  keeps_calls m -> (forall a, keeps_calls (k a)) -> keeps_calls (bind m k).
Proof.
  intros Hm Hk st r st' E. unfold bind in E.
  destruct (m st) as [[e|a] st1] eqn:Em.
  - inversion E; subst. eauto.
  - rewrite (Hk a _ _ _ E). eauto.
Qed.
Lemma catch_keeps_calls m : keeps_calls m -> keeps_calls (catch_file_exists m).
Proof.
  intros Hm st r st' E. unfold catch_file_exists in E.
  destruct (m st) as [[[]|] st1] eqn:Em; inversion E; subst; eauto.
Qed.

Create HintDb frame.
#[export] Hint Resolve ret_keeps_state raise_keeps_state get_fs_keeps_state
  lift_keeps_state bind_keeps_state keeps_state_calls on_fs_keeps_calls
  bind_keeps_calls catch_keeps_calls : frame.

Ltac frame_if := repeat (intros; match goal with
  | |- keeps_state (if ?b then _ else _) => destruct b
  | |- keeps_calls (if ?b then _ else _) => destruct b
  | |- keeps_state (match ?x with _ => _ end) => destruct x
  | |- keeps_calls (match ?x with _ => _ end) => destruct x
  | |- keeps_state (bind _ _) => apply bind_keeps_state
  | |- keeps_calls (bind _ _) => apply bind_keeps_calls
  | |- _ => eauto 3 with frame
  end).

Lemma load_config_keeps_state pkg_dir yaml_load cf :
  keeps_state (load_config pkg_dir yaml_load cf).
Proof. unfold load_config. frame_if. Qed.

Lemma makedirs_fuel_keeps_calls n name : keeps_calls (makedirs_fuel n name).
Proof.
  revert name. induction n as [|n IH]; intros name; simpl.
  - apply keeps_state_calls, raise_keeps_state.
  - frame_if.
Qed.

Lemma prepare_keeps_calls cwd config seg : keeps_calls (prepare cwd config seg).
Proof.
  unfold prepare, makedirs. frame_if. apply makedirs_fuel_keeps_calls.
Qed.

Lemma finalize_keeps_calls config out_folder img seg :
  keeps_calls (finalize config out_folder img seg).
Proof. unfold finalize. frame_if. Qed.

Lemma prepare_result cwd config seg st d c1 st' :
  prepare cwd config seg st = (inr (d, c1), st') ->
  d = out_folder_of cwd seg /\
  setitem config "output" (output_entry (out_folder_of cwd seg)) = inr c1.
Proof.
  unfold prepare, bind, get_fs, lift, ret, raise. intros H.
  repeat case_match; simplify_eq; auto.
Qed.

(** One iteration either stops before the call or makes exactly one call,
    with [config['output']] set for the current output path. *)
Lemma iteration_calls cwd run_inference config img seg st r st' :
  iteration cwd run_inference config img seg st = (r, st') ->
  st_calls st' = st_calls st \/
  exists c1, setitem config "output" (output_entry (out_folder_of cwd seg)) = inr c1 /\
    st_calls st' = st_calls st ++ [(img, c1)] /\
    (forall c', r = inr c' -> exists u fs2, run_inference img c1 (st_fs (snd (prepare cwd config seg st))) = (inr u, (c', fs2))).
Proof.
  unfold iteration. unfold bind at 1. intros H.
  destruct (prepare cwd config seg st) as [[e|[d c1]] st1] eqn:Ep.
  - inversion H; subst. left. eapply prepare_keeps_calls; eauto.
  - apply prepare_result in Ep as Hp. destruct Hp as [-> Hs].
    pose proof (prepare_keeps_calls cwd config seg st _ _ Ep) as Hc1.
    right. exists c1. split; [done|].
    unfold bind, call_inference in H.
    destruct (run_inference img c1 (st_fs st1)) as [[e|u] [c' fs2]] eqn:Er.
    + inversion H; subst. simpl. rewrite Hc1. split; [done|]. discriminate.
    + destruct (finalize c' _ img seg _) as [[e|[]] st3] eqn:Ef;
        apply finalize_keeps_calls in Ef; simpl in Ef; inversion H; subst;
        rewrite Ef, Hc1; split; try done;
        intros c'' Hr; inversion Hr; subst; simpl; eauto.
Qed.

(** A successful iteration has made its call. *)
Lemma iteration_success_calls cwd run_inference config img seg st c' st' :
  iteration cwd run_inference config img seg st = (inr c', st') ->
  st_calls st' <> st_calls st.
Proof.
  intros Ei Hc. unfold iteration, bind, call_inference in Ei.
  destruct (prepare _ _ _ _) as [[|[d c1]] st2] eqn:Ep; [discriminate|].
  destruct (run_inference _ _ _) as [[|] [? ?]]; [discriminate|].
  destruct (finalize _ _ _ _ _) as [[|[]] st3] eqn:Ef; [discriminate|].
  apply finalize_keeps_calls in Ef. apply prepare_keeps_calls in Ep.
  inversion Ei; subst. simpl in Ef. rewrite Ef, Ep in Hc.
  apply (f_equal length) in Hc. rewrite length_app in Hc. simpl in Hc. lia.
Qed.

Lemma loop_calls_success cwd run_inference pairs config st st' :
  loop cwd run_inference config pairs st = (inr tt, st') ->
  map (fun c => (c.1, getitem c.2 "output")) (st_calls st') =
  map (fun c => (c.1, getitem c.2 "output")) (st_calls st) ++
  map (fun p => (p.1, inr (output_entry (out_folder_of cwd p.2)))) pairs.
Proof.
  revert config st. induction pairs as [|[img seg] pairs IH]; intros config st H; simpl in *.
  - inversion H; subst. by rewrite app_nil_r.
  - unfold bind in H.
    destruct (iteration cwd run_inference config img seg st) as [[e|c'] st1] eqn:Ei;
      [discriminate|].
    apply IH in H. rewrite H.
    destruct (iteration_calls _ _ _ _ _ _ _ _ Ei) as [Hc|[c1 [Hs [Hc _]]]].
    + exfalso. by apply (iteration_success_calls _ _ _ _ _ _ _ _ Ei).
    + rewrite Hc, map_app, <-app_assoc. simpl.
      by rewrite (getitem_setitem _ _ _ _ Hs).
Qed.

Lemma getitem_err c k e : getitem c k = inl e -> e = TypeError \/ e = KeyError k.
Proof. destruct c; simpl; try (intros [= <-]; by left). case_match; intros [= <-]; by right. Qed.

Lemma setitem_err c k v e : setitem c k v = inl e -> e = TypeError.
Proof. destruct c; simpl; by intros [= <-]. Qed.

Lemma map_fst_zip {A B} (l : list A) (k : list B) :
  length l = length k -> map fst (zip l k) = l.
Proof.
  revert k. induction l as [|x l IH]; intros [|y k] Hl; simpl in *; try done.
  by rewrite IH by lia.
Qed.


Lemma frame_of_setitem cfg0 config e :
  frame_of cfg0 config -> setitem config "output" e = setitem cfg0 "output" e.
Proof.
  intros [->|[e0 He0]]; [done|]. by apply setitem_setitem with (v1 := e0).
Qed.

Lemma loop_config_frame cwd run_inference cfg0 pairs config st r st' :
  (forall i c fs, (run_inference i c fs).2.1 = c) ->
  frame_of cfg0 config ->
  loop cwd run_inference config pairs st = (r, st') ->
  exists new, st_calls st' = st_calls st ++ new /\
    Forall (fun c => exists d, setitem cfg0 "output" (output_entry d) = inr c.2) new.
Proof.
  intros Hpres. revert config st.
  induction pairs as [|[img seg] pairs IH]; intros config st Hf H; simpl in *.
  - inversion H; subst. exists []. by rewrite app_nil_r.
  - unfold bind in H.
    destruct (iteration cwd run_inference config img seg st) as [[e|c'] st1] eqn:Ei.
    + inversion H; subst.
      destruct (iteration_calls _ _ _ _ _ _ _ _ Ei) as [Hc|[c1 [Hs [Hc _]]]].
      * exists []. by rewrite Hc, app_nil_r.
      * exists [(img, c1)]. split; [done|]. constructor; [|constructor].
        exists (out_folder_of cwd seg). simpl. by rewrite <-(frame_of_setitem _ _ _ Hf).
    + destruct (iteration_calls _ _ _ _ _ _ _ _ Ei) as [Hc|[c1 [Hs [Hc Hr]]]].
      * destruct (IH c' st1) as [new [Hn HF]]; [|done|].
        -- exfalso. by apply (iteration_success_calls _ _ _ _ _ _ _ _ Ei).
        -- exists new. by rewrite Hn, Hc.
      * destruct (Hr c' eq_refl) as [u [fs2 Hri]].
        pose proof (Hpres img c1 (st_fs (snd (prepare cwd config seg st)))) as Hp.
        rewrite Hri in Hp. simpl in Hp. subst c'.
        rewrite (frame_of_setitem _ _ _ Hf) in Hs.
        destruct (IH c1 st1) as [new [Hn HF]]; [right; eauto|done|].
        exists ((img, c1) :: new). rewrite Hn, Hc, <-app_assoc. split; [done|].
        constructor; [|done]. simpl. eauto.
Qed.

End Facts.

(** ** The claims *)

Module Claims.
Import Facts.
Local Open Scope list_scope.

Lemma load_config_state pkg_dir yaml_load cf st r st' :
  load_config pkg_dir yaml_load cf st = (r, st') -> st' = st.
Proof.
  intros H. pose proof (load_config_keeps_state pkg_dir yaml_load cf st) as Hk.
  by rewrite H in Hk.
Qed.

Lemma main_config_error pkg_dir cwd yaml_load run_inference cf ins segs st e st' :
  load_config pkg_dir yaml_load cf st = (inl e, st') ->
  main pkg_dir cwd yaml_load run_inference cf ins segs st = (inl e, st').
Proof. intros H. unfold main, bind at 1. by rewrite H. Qed.

Lemma load_config_missing pkg_dir yaml_load cf st :
  isfile (st_fs st) (effective_config_file pkg_dir cf) = false ->
  load_config pkg_dir yaml_load cf st =
  (inl (FileNotFoundError ("Expected config file: " +:+
     effective_config_file pkg_dir cf +:+ " not found")), st).
Proof. intros H. unfold load_config, bind, get_fs. by rewrite H. Qed.

(** C4: the configuration step raises [FileNotFoundError] exactly when the
    effective path (the explicit one, else the package default) is not a
    file; an explicit missing path fails the run with that path in the
    message, no fallback, and nothing else happens. *)
Theorem config_not_found_iff pkg_dir yaml_load cf st :
  ((exists msg, (load_config pkg_dir yaml_load cf st).1 = inl (FileNotFoundError msg)) <->
   isfile (st_fs st) (effective_config_file pkg_dir cf) = false) /\
  (forall cwd run_inference p ins segs, cf = Some p ->
   isfile (st_fs st) p = false ->
   main pkg_dir cwd yaml_load run_inference cf ins segs st =
   (inl (FileNotFoundError ("Expected config file: " +:+ p +:+ " not found")), st)).
Proof.
  split.
  - destruct (isfile (st_fs st) (effective_config_file pkg_dir cf)) eqn:Hf.
    + split; [|done]. intros [msg Hm]. exfalso.
      revert Hm. unfold load_config, bind, get_fs, lift, ret, raise. rewrite Hf. simpl.
      repeat case_match; simpl; intros Heq; simplify_eq;
        match goal with
        | H : getitem _ _ = inl _ |- _ => apply getitem_err in H
        | H : setitem _ _ _ = inl _ |- _ => apply setitem_err in H
        end; naive_solver.
    + split; [done|]. rewrite load_config_missing by done. simpl. eauto.
  - intros cwd run_inference p ins segs -> Hf.
    apply main_config_error. by apply load_config_missing.
Qed.

(** C10: the configuration step (existence check, parsing, model-path
    substitution) runs before the length assertion: with mismatched lists,
    any failure of that step is the run's error, with the state unchanged;
    in particular a missing configuration file (explicit or default) fails
    with [FileNotFoundError], not [AssertionError]; only once the step has
    succeeded does the run fail with the [AssertionError]. *)
Theorem config_checked_before_lengths pkg_dir cwd yaml_load run_inference cf ins segs st :
  length ins <> length segs ->
  (forall e st1, load_config pkg_dir yaml_load cf st = (inl e, st1) ->
   main pkg_dir cwd yaml_load run_inference cf ins segs st = (inl e, st)) /\
  (isfile (st_fs st) (effective_config_file pkg_dir cf) = false ->
   main pkg_dir cwd yaml_load run_inference cf ins segs st =
   (inl (FileNotFoundError ("Expected config file: " +:+
      effective_config_file pkg_dir cf +:+ " not found")), st)) /\
  (forall cfg st1, load_config pkg_dir yaml_load cf st = (inr cfg, st1) ->
   main pkg_dir cwd yaml_load run_inference cf ins segs st =
   (inl (AssertionError "The numbers of input output filenames do not match"), st)).
Proof.
  intros Hl. apply Nat.eqb_neq in Hl.
  split; [|split].
  - intros e st1 H. pose proof (load_config_state _ _ _ _ _ _ H) as ->.
    by apply main_config_error.
  - intros Hf. apply main_config_error. by apply load_config_missing.
  - intros cfg st1 H. pose proof (load_config_state _ _ _ _ _ _ H) as ->.
    unfold main, bind at 1. rewrite H. unfold bind. by rewrite Hl.
Qed.

(** C2 (amended): with mismatched lists no inference call is ever made;
    once the configuration step has succeeded the run fails with the
    [AssertionError]; when the configuration step fails, the run fails
    first, with that step's own error. *)
Theorem length_mismatch_no_inference pkg_dir cwd yaml_load run_inference cf ins segs st :
  length ins <> length segs ->
  st_calls (main pkg_dir cwd yaml_load run_inference cf ins segs st).2 = st_calls st /\
  (forall cfg st1, load_config pkg_dir yaml_load cf st = (inr cfg, st1) ->
   main pkg_dir cwd yaml_load run_inference cf ins segs st =
   (inl (AssertionError "The numbers of input output filenames do not match"), st)) /\
  (forall e st1, load_config pkg_dir yaml_load cf st = (inl e, st1) ->
   main pkg_dir cwd yaml_load run_inference cf ins segs st = (inl e, st)).
Proof.
  intros Hl. apply Nat.eqb_neq in Hl.
  assert (Hm : forall cfg st1, load_config pkg_dir yaml_load cf st = (inr cfg, st1) ->
   main pkg_dir cwd yaml_load run_inference cf ins segs st =
   (inl (AssertionError "The numbers of input output filenames do not match"), st)).
  { intros cfg st1 H. pose proof (load_config_state _ _ _ _ _ _ H) as ->.
    unfold main, bind at 1. rewrite H. unfold bind. by rewrite Hl. }
  assert (He : forall e st1, load_config pkg_dir yaml_load cf st = (inl e, st1) ->
   main pkg_dir cwd yaml_load run_inference cf ins segs st = (inl e, st)).
  { intros e st1 H. pose proof (load_config_state _ _ _ _ _ _ H) as ->.
    by apply main_config_error. }
  split; [|split; done].
  destruct (load_config pkg_dir yaml_load cf st) as [[e|cfg] st1] eqn:H.
  - by rewrite (He _ _ eq_refl).
  - by rewrite (Hm _ _ eq_refl).
Qed.

(** C3: a run that succeeds makes one call per (input, output) pair, in
    list order: the [i]-th call gets the [i]-th input, and its configuration
    carries the output folder of the [i]-th output. *)
Theorem one_call_per_pair pkg_dir cwd yaml_load run_inference cf ins segs st st' :
  st_calls st = [] ->
  main pkg_dir cwd yaml_load run_inference cf ins segs st = (inr tt, st') ->
  length ins = length segs /\
  map fst (st_calls st') = ins /\
  map (fun c => (c.1, getitem c.2 "output")) (st_calls st') =
  map (fun p => (p.1, inr (output_entry (out_folder_of cwd p.2)))) (zip ins segs).
Proof.
  intros H0 H. unfold main, bind at 1 in H.
  destruct (load_config pkg_dir yaml_load cf st) as [[e|cfg] st1] eqn:Hc; [discriminate|].
  pose proof (load_config_state _ _ _ _ _ _ Hc) as ->.
  unfold bind in H. destruct (Nat.eqb_spec (length ins) (length segs)) as [Hl|]; [|discriminate].
  apply loop_calls_success in H. rewrite H0 in H. simpl in H.
  split; [done|]. split; [|done].
  apply (f_equal (map fst)) in H. rewrite !map_map in H.
  change (map fst (st_calls st') = map fst (zip ins segs)) in H.
  rewrite H. by apply map_fst_zip.
Qed.

(** C5: when [inference.model_to_load] is the string ["default"] it is
    replaced by [<package>/models/checkpoint_dynUnet_DiceXent.pt] (in place,
    nothing else changes); any other value leaves the configuration as
    loaded. *)
Theorem model_default_substitution pkg_dir yaml_load cf st cfg0 st' :
  load_config pkg_dir yaml_load cf st = (inr cfg0, st') ->
  exists loaded inf m,
    yaml_load (st_fs st) (effective_config_file pkg_dir cf) = Some loaded /\
    getitem loaded "inference" = inr inf /\
    getitem inf "model_to_load" = inr m /\
    (is_default m = true ->
     exists inf', setitem inf "model_to_load"
                    (YStr (PosixPath.join pkg_dir ["models"; "checkpoint_dynUnet_DiceXent.pt"]))
                  = inr inf' /\
                  setitem loaded "inference" inf' = inr cfg0) /\
    (is_default m = false -> cfg0 = loaded).
Proof.
  unfold load_config, bind, get_fs, lift, ret, raise. intros H.
  repeat case_match; simplify_eq; eauto 10.
  all: do 3 eexists; repeat split; eauto; congruence.
Qed.

(** C6: the output folder is [dirname(seg)], or the working directory when
    that is empty; when it exists already nothing is created and the file
    system is untouched, otherwise [os.makedirs] creates it; the call to
    [run_inference] receives the configuration with [output] set to
    [{out_postfix: "seg", out_dir: <folder>}]. *)
Theorem output_folder_prepared cwd run_inference config img seg st :
  let d := out_folder_of cwd seg in
  d = (if String.eqb (PosixPath.dirname seg) "" then cwd else PosixPath.dirname seg) /\
  output_entry d = YMap [("out_postfix", YStr "seg"); ("out_dir", YStr d)] /\
  (path_exists (st_fs st) d = true ->
   prepare cwd config seg st =
   (match setitem config "output" (output_entry d) with
    | inl e => inl e | inr c => inr (d, c) end, st)) /\
  (path_exists (st_fs st) d = false ->
   prepare cwd config seg st =
   (makedirs d ;;; c <- lift (setitem config "output" (output_entry d));; ret (d, c)) st) /\
  (forall r st', iteration cwd run_inference config img seg st = (r, st') ->
   st_calls st' = st_calls st \/
   exists c1, setitem config "output" (output_entry d) = inr c1 /\
              st_calls st' = st_calls st ++ [(img, c1)]).
Proof.
  intros d. split; [done|]. split; [done|]. split; [|split].
  - intros He. unfold prepare, bind, get_fs, lift, ret, raise. fold d. rewrite He. simpl.
    by destruct (setitem config "output" (output_entry d)).
  - intros He. unfold prepare, bind at 1, get_fs. fold d. by rewrite He.
  - intros r st' H. destruct (iteration_calls _ _ _ _ _ _ _ _ H) as [Hc|[c1 [Hs [Hc _]]]]; eauto.
Qed.

(** C7: a successful finalizer found the expected file, renamed it to the
    requested name, and only then removed the intermediate folder; on the
    spec's example it leaves [out/case1_mask.nii.gz] and no [out/case1]. *)
Theorem finalize_moves_output :
  finalize (YMap [("output", output_entry "out")]) "out" "case1.nii.gz" "out/case1_mask.nii.gz"
    (mkSt (mkFS {["out/case1/case1_seg.nii.gz"]} {["out"; "out/case1"]}) [])
  = (inr tt, mkSt (mkFS {["out/case1_mask.nii.gz"]} {["out"]}) []) /\
  (forall config out_folder img seg st st',
   finalize config out_folder img seg st = (inr tt, st') ->
   exists outp postfix fs1,
     getitem config "output" = inr outp /\
     getitem outp "out_postfix" = inr (YStr postfix) /\
     let '(stem, p) := expected_output out_folder img postfix in
     path_exists (st_fs st) p = true /\
     rename p seg (st_fs st) = inr fs1 /\
     (path_exists fs1 seg = true ->
      rmdir (PosixPath.join out_folder [stem]) fs1 = inr (st_fs st')) /\
     (path_exists fs1 seg = false -> st_fs st' = fs1)).
Proof.
  split; [vm_compute; reflexivity|].
  intros config out_folder img seg st st' H.
  unfold finalize, bind, lift, get_fs, ret, raise, on_fs in H.
  destruct (getitem config "output") as [|outp] eqn:Ho; [discriminate|].
  destruct (getitem outp "out_postfix") as [|pf] eqn:Hp; [discriminate|].
  destruct pf as [postfix| | | |]; simpl in H; try discriminate.
  exists outp, postfix.
  destruct (expected_output out_folder img postfix) as [stem p].
  destruct (path_exists (st_fs st) p) eqn:He; simpl in H; [|discriminate].
  destruct (rename p seg (st_fs st)) as [|fs1] eqn:Hr; [discriminate|].
  exists fs1. simpl in H. repeat split; auto.
  - intros Hs. rewrite Hs in H. simpl in H |- *.
    destruct (rmdir (PosixPath.join2 out_folder stem) fs1) eqn:Hd;
      inversion H; subst; simpl; done.
  - intros Hs. rewrite Hs in H. inversion H; subst. done.
Qed.

(** C8: when the expected file is absent the finalizer raises
    [FileNotFoundError] and leaves the state as it found it. *)
Theorem finalize_missing_output config outp out_folder img seg postfix st :
  getitem config "output" = inr outp ->
  getitem outp "out_postfix" = inr (YStr postfix) ->
  path_exists (st_fs st) (expected_output out_folder img postfix).2 = false ->
  finalize config out_folder img seg st =
  (inl (FileNotFoundError ("Network output file " +:+
     (expected_output out_folder img postfix).2 +:+
     " not found, check if the segmentation pipeline has failed")), st).
Proof.
  intros Ho Hp He. unfold finalize, bind, lift, get_fs, ret, raise.
  rewrite Ho, Hp. simpl.
  destruct (expected_output out_folder img postfix) as [stem p]. simpl in *.
  by rewrite He.
Qed.

(** C9: each iteration changes only the [output] entry of the
    configuration it passes on; when [run_inference] leaves the shared
    configuration alone, every call of a run sees the configuration produced
    by the configuration step with only [output] reassigned. *)
Theorem config_only_output_changes :
  (forall cwd run_inference config img seg st r st',
   iteration cwd run_inference config img seg st = (r, st') ->
   st_calls st' = st_calls st \/
   exists c1, st_calls st' = st_calls st ++ [(img, c1)] /\
     forall k, k <> "output" -> getitem c1 k = getitem config k) /\
  (forall pkg_dir cwd yaml_load run_inference cf ins segs st cfg0 st1 r st',
   (forall i c fs, (run_inference i c fs).2.1 = c) ->
   st_calls st = [] ->
   load_config pkg_dir yaml_load cf st = (inr cfg0, st1) ->
   main pkg_dir cwd yaml_load run_inference cf ins segs st = (r, st') ->
   Forall (fun c => (exists d, setitem cfg0 "output" (output_entry d) = inr c.2) /\
                    forall k, k <> "output" -> getitem c.2 k = getitem cfg0 k)
          (st_calls st')).
Proof.
  split.
  - intros cwd run_inference config img seg st r st' H.
    destruct (iteration_calls _ _ _ _ _ _ _ _ H) as [Hc|[c1 [Hs [Hc _]]]]; [by left|].
    right. exists c1. split; [done|]. intros k Hk. by apply (getitem_setitem_ne _ _ _ _ _ Hk Hs).
  - intros pkg_dir cwd yaml_load run_inference cf ins segs st cfg0 st1 r st' Hpres H0 Hc H.
    pose proof (load_config_state _ _ _ _ _ _ Hc) as ->.
    unfold main, bind at 1 in H. rewrite Hc in H. unfold bind in H.
    destruct (Nat.eqb (length ins) (length segs)).
    + destruct (loop_config_frame _ _ cfg0 _ _ _ _ _ Hpres (or_introl eq_refl) H)
        as [new [Hn HF]].
      rewrite Hn, H0. simpl. eapply Forall_impl; [exact HF|].
      intros c [d Hd]. split; [eauto|]. intros k Hk.
      by apply (getitem_setitem_ne _ _ _ _ _ Hk Hd).
    + inversion H; subst. rewrite H0. constructor.
Qed.

(** C1 (code bug): the [.nii.gz] test is ['gz' in img_filename], a
    substring test on the whole base name. An uncompressed input whose name
    contains ["gz"] is cut by 7 characters and given the [.nii.gz]
    extension, so the expected path differs from the naming convention and
    the run fails although the inference wrote its file. For names without
    ["gz"] before the extension the two agree. *)
Theorem gz_substring_misnames_nii :
  expected_output "out" "case2.nii" "seg" = spec_expected_output "out" "case2.nii" "seg" /\
  expected_output "out" "case1.nii.gz" "seg" = spec_expected_output "out" "case1.nii.gz" "seg" /\
  expected_output "out" "sub-gz01_T2w.nii" "seg" =
    ("sub-gz01_", "out/sub-gz01_/sub-gz01__seg.nii.gz") /\
  spec_expected_output "out" "sub-gz01_T2w.nii" "seg" =
    ("sub-gz01_T2w", "out/sub-gz01_T2w/sub-gz01_T2w_seg.nii") /\
  (main "/pkg" "/home" test_yaml stub_inference (Some "cfg.yml")
     ["sub-gz01_T2w.nii"] ["out/sub-gz01_T2w_mask.nii"] test_st).1 =
  inl (FileNotFoundError "Network output file out/sub-gz01_/sub-gz01__seg.nii.gz not found, check if the segmentation pipeline has failed").
Proof. repeat split; vm_compute; reflexivity. Qed.

(** C2 fails as stated: with a missing configuration file and mismatched
    lists the run fails with [FileNotFoundError], not [AssertionError]. *)
Lemma missing_config_not_assertion :
  main "/pkg" "/home" test_yaml stub_inference (Some "missing.yml")
    ["a.nii"] ["b.nii"; "c.nii"] test_st =
  (inl (FileNotFoundError "Expected config file: missing.yml not found"), test_st) /\
  ~ (exists msg, (main "/pkg" "/home" test_yaml stub_inference (Some "missing.yml")
                    ["a.nii"] ["b.nii"; "c.nii"] test_st).1 = inl (AssertionError msg)).
Proof.
  split; [vm_compute; reflexivity|].
  intros [msg H]. vm_compute in H. discriminate.
Qed.

End Claims.

Module PathTests.
Import PosixPath.
Example basename_1 : basename "out/case1/x.nii.gz" = "x.nii.gz". Proof. reflexivity. Qed.
Example dirname_1 : dirname "out/case1_mask.nii.gz" = "out". Proof. reflexivity. Qed.
Example dirname_2 : dirname "case1_mask.nii.gz" = "". Proof. reflexivity. Qed.
Example dirname_3 : dirname "/x" = "/". Proof. reflexivity. Qed.
Example dirname_4 : dirname "a//b" = "a". Proof. reflexivity. Qed.
Example join_1 : join "out" ["case1"; "case1_seg.nii.gz"] = "out/case1/case1_seg.nii.gz". Proof. reflexivity. Qed.
Example drop_1 : PyStr.drop_end 7 "case1.nii.gz" = "case1". Proof. reflexivity. Qed.
Example contains_1 : PyStr.contains "gz" "case1.nii.gz" = true. Proof. reflexivity. Qed.
Example makedirs_1 :
  makedirs "a/b/c" (mkSt (mkFS ∅ ∅) []) = (inr tt, mkSt (mkFS ∅ {["a"; "a/b"; "a/b/c"]}) []).
Proof. vm_compute. reflexivity. Qed.
Example makedirs_2 :
  makedirs "f/b" (mkSt (mkFS {["f"]} ∅) []) = (inl (NotADirectoryError "f/b"), mkSt (mkFS {["f"]} ∅) []).
Proof. vm_compute. reflexivity. Qed.
Example normal_path_1 : normal_path "out/case1_mask.nii.gz" = true. Proof. reflexivity. Qed.
Example normal_path_2 : normal_path "/pkg/config" = true. Proof. reflexivity. Qed.
Example normal_path_3 : normal_path "out/" = false. Proof. reflexivity. Qed.
Example normal_path_4 : normal_path "out//x.nii" = false. Proof. reflexivity. Qed.
Example normal_path_5 : normal_path "out/./x.nii" = false. Proof. reflexivity. Qed.
Example normal_path_6 : normal_path "../x.nii" = false. Proof. reflexivity. Qed.
End PathTests.

Module Witnesses.
Import Facts Claims.
Local Open Scope list_scope.


Lemma stub_inference_keeps_config i c fs : (stub_inference i c fs).2.1 = c.
Proof. unfold stub_inference. repeat case_match; simplify_eq/=; done. Qed.

Lemma length_mismatch_no_inference_witness :
  length ["a.nii"] <> length ["b.nii"; "c.nii"] /\
  main "/pkg" "/home" test_yaml stub_inference (Some "cfg.yml")
    ["a.nii"] ["b.nii"; "c.nii"] test_st =
  (inl (AssertionError "The numbers of input output filenames do not match"), test_st) /\
  main "/pkg" "/home" test_yaml stub_inference (Some "missing.yml")
    ["a.nii"] ["b.nii"; "c.nii"] test_st =
  (inl (FileNotFoundError "Expected config file: missing.yml not found"), test_st).
Proof.
  split; [simpl; lia|]. split.
  - apply (proj1 (proj2 (length_mismatch_no_inference "/pkg" "/home" test_yaml stub_inference
      (Some "cfg.yml") ["a.nii"] ["b.nii"; "c.nii"] test_st ltac:(simpl; lia)))
      cfg_loaded test_st).
    reflexivity.
  - apply (proj2 (proj2 (length_mismatch_no_inference "/pkg" "/home" test_yaml stub_inference
      (Some "missing.yml") ["a.nii"] ["b.nii"; "c.nii"] test_st ltac:(simpl; lia)))
      (FileNotFoundError "Expected config file: missing.yml not found") test_st).
    vm_compute; reflexivity.
Defined.

Lemma one_call_per_pair_witness :
  demo_run.1 = inr tt /\ map fst (st_calls demo_run.2) = ["case1.nii.gz"; "d/case2.nii"].
Proof.
  split; [reflexivity|].
  exact (proj1 (proj2 (one_call_per_pair "/pkg" "/home" test_yaml stub_inference
    (Some "cfg.yml") ["case1.nii.gz"; "d/case2.nii"] ["out/case1_mask.nii.gz"; "case2_mask.nii"]
    test_st demo_run.2 eq_refl eq_refl))).
Defined.

Lemma config_not_found_iff_witness :
  isfile (st_fs test_st) "missing.yml" = false /\
  main "/pkg" "/home" test_yaml stub_inference (Some "missing.yml") ["a.nii"] ["b.nii"] test_st =
  (inl (FileNotFoundError "Expected config file: missing.yml not found"), test_st).
Proof.
  split; [reflexivity|].
  exact (proj2 (config_not_found_iff "/pkg" test_yaml (Some "missing.yml") test_st)
    "/home" stub_inference "missing.yml" ["a.nii"] ["b.nii"] eq_refl eq_refl).
Defined.

Lemma model_default_substitution_witness :
  load_config "/pkg" test_yaml (Some "cfg.yml") test_st = (inr cfg_loaded, test_st) /\
  exists loaded inf m, test_yaml test_fs "cfg.yml" = Some loaded /\
    getitem loaded "inference" = inr inf /\ getitem inf "model_to_load" = inr m /\
    is_default m = true.
Proof.
  split; [reflexivity|].
  destruct (model_default_substitution "/pkg" test_yaml (Some "cfg.yml") test_st
    cfg_loaded test_st eq_refl) as [loaded [inf [m [H1 [H2 [H3 _]]]]]].
  exists loaded, inf, m. split; [exact H1|]. split; [exact H2|]. split; [exact H3|].
  simpl in H1. inversion H1; subst. simpl in H2. inversion H2; subst.
  simpl in H3. inversion H3; subst. reflexivity.
Defined.

Lemma output_folder_prepared_witness :
  path_exists fs_out "out" = true /\
  prepare "/home" cfg_loaded "out/x_mask.nii" (mkSt fs_out []) =
  (inr ("out", YMap [("inference", YMap [("model_to_load",
      YStr "/pkg/models/checkpoint_dynUnet_DiceXent.pt")]);
    ("output", output_entry "out")]), mkSt fs_out []).
Proof.
  split; [reflexivity|].
  rewrite (proj1 (proj2 (proj2 (output_folder_prepared "/home" stub_inference cfg_loaded
    "x.nii" "out/x_mask.nii" (mkSt fs_out [])))) ltac:(reflexivity)).
  reflexivity.
Defined.

Lemma finalize_moves_output_witness :
  exists outp postfix fs1,
    getitem (YMap [("output", output_entry "out")]) "output" = inr outp /\
    getitem outp "out_postfix" = inr (YStr postfix) /\
    rename "out/case1/case1_seg.nii.gz" "out/case1_mask.nii.gz" fs_case1 = inr fs1.
Proof.
  destruct (proj2 finalize_moves_output _ _ _ _ _ _ (proj1 finalize_moves_output))
    as [outp [postfix [fs1 [H1 [H2 H3]]]]].
  exists outp, postfix, fs1. split; [exact H1|]. split; [exact H2|].
  simpl in H1. inversion H1; subst. simpl in H2. inversion H2; subst.
  destruct H3 as [_ [Hr _]]. exact Hr.
Defined.

Lemma finalize_missing_output_witness :
  finalize (YMap [("output", output_entry "out")]) "out" "case1.nii.gz" "out/case1_mask.nii.gz"
    (mkSt fs_out []) =
  (inl (FileNotFoundError "Network output file out/case1/case1_seg.nii.gz not found, check if the segmentation pipeline has failed"),
   mkSt fs_out []).
Proof.
  exact (finalize_missing_output (YMap [("output", output_entry "out")]) (output_entry "out")
    "out" "case1.nii.gz" "out/case1_mask.nii.gz" "seg" (mkSt fs_out [])
    eq_refl eq_refl eq_refl).
Defined.

Lemma config_only_output_changes_witness :
  Forall (fun c => (exists d, setitem cfg_loaded "output" (output_entry d) = inr c.2) /\
                   forall k, k <> "output" -> getitem c.2 k = getitem cfg_loaded k)
         (st_calls demo_run.2).
Proof.
  exact (proj2 config_only_output_changes "/pkg" "/home" test_yaml stub_inference
    (Some "cfg.yml") ["case1.nii.gz"; "d/case2.nii"] ["out/case1_mask.nii.gz"; "case2_mask.nii"]
    test_st cfg_loaded test_st demo_run.1 demo_run.2
    stub_inference_keeps_config eq_refl eq_refl eq_refl).
Defined.

Lemma config_checked_before_lengths_witness :
  main "/pkg" "/home" test_yaml stub_inference (Some "missing.yml")
    ["a.nii"] ["b.nii"; "c.nii"] test_st =
  (inl (FileNotFoundError "Expected config file: missing.yml not found"), test_st) /\
  main "/pkg" "/home" empty_yaml stub_inference (Some "cfg.yml")
    ["a.nii"] ["b.nii"; "c.nii"] test_st = (inl TypeError, test_st).
Proof.
  split.
  - exact (proj1 (proj2 (config_checked_before_lengths "/pkg" "/home" test_yaml stub_inference
      (Some "missing.yml") ["a.nii"] ["b.nii"; "c.nii"] test_st ltac:(simpl; lia))) eq_refl).
  - apply (proj1 (config_checked_before_lengths "/pkg" "/home" empty_yaml stub_inference
      (Some "cfg.yml") ["a.nii"] ["b.nii"; "c.nii"] test_st ltac:(simpl; lia)) TypeError test_st).
    vm_compute; reflexivity.
Defined.

End Witnesses.

(** ** Further properties of the script *)

Module ExtraFacts.
Import Facts.
Local Open Scope list_scope.

Lemma length_append s t : String.length (s +:+ t) = String.length s + String.length t.
Proof. induction s; simpl; auto. Qed.

Lemma substring_front s t : String.substring 0 (String.length s) (s +:+ t) = s.
Proof. induction s as [|c s IH]; simpl; [by destruct t|]. by rewrite IH. Qed.

Lemma drop_end_append s t :
  PyStr.drop_end (String.length t) (s +:+ t) = s.
Proof.
  unfold PyStr.drop_end. rewrite length_append.
  replace (String.length s + String.length t - String.length t) with (String.length s) by lia.
  apply substring_front.
Qed.


Lemma contains_cons pat c s :
  PyStr.contains pat (String c s) = String.prefix pat (String c s) || PyStr.contains pat s.
Proof. reflexivity. Qed.

Lemma str_prefix_cons a p c s :
  String.prefix (String a p) (String c s) = if ascii_dec a c then String.prefix p s else false.
Proof. reflexivity. Qed.

Lemma contains_append_r pat s t :
  PyStr.contains pat t = true -> PyStr.contains pat (s +:+ t) = true.
Proof.
  intros H. induction s as [|c s IH]; [done|].
  change (String c s +:+ t) with (String c (s +:+ t)).
  by rewrite contains_cons, IH, orb_true_r.
Qed.

(** ["gz"] cannot straddle the boundary before [".nii"]. *)
Lemma contains_gz_nii stem :
  PyStr.contains "gz" stem = false -> PyStr.contains "gz" (stem +:+ ".nii") = false.
Proof.
  induction stem as [|c s IH]; [intros _; reflexivity|].
  change (String c s +:+ ".nii") with (String c (s +:+ ".nii")).
  rewrite !contains_cons. intros H. apply orb_false_iff in H as [Hp Hc].
  rewrite IH by done. rewrite orb_false_r.
  rewrite str_prefix_cons in Hp |- *.
  destruct (ascii_dec "g" c); [|done].
  destruct s as [|c' s']; [reflexivity|].
  change (String c' s' +:+ ".nii") with (String c' (s' +:+ ".nii")).
  rewrite str_prefix_cons in Hp |- *.
  destruct (ascii_dec "z" c'); [|done]. by destruct s'.
Qed.

Lemma load_config_unchanged pkg_dir yaml_load cf st r st' :
  load_config pkg_dir yaml_load cf st = (r, st') -> st' = st.
Proof.
  intros H. pose proof (load_config_keeps_state pkg_dir yaml_load cf st) as Hk.
  by rewrite H in Hk.
Qed.

Lemma loop_calls_prefix cwd run_inference pairs config st r st' :
  loop cwd run_inference config pairs st = (r, st') ->
  exists new, st_calls st' = st_calls st ++ new /\ new.*1 `prefix_of` pairs.*1.
Proof.
  revert config st. induction pairs as [|[img seg] pairs IH]; intros config st H; simpl in *.
  - inversion H; subst. exists []. by rewrite app_nil_r.
  - unfold bind in H.
    destruct (iteration cwd run_inference config img seg st) as [[e|c'] st1] eqn:Ei.
    + inversion H; subst.
      destruct (iteration_calls _ _ _ _ _ _ _ _ Ei) as [Hc|[c1 [_ [Hc _]]]].
      * exists []. rewrite Hc, app_nil_r. split; [done|]. apply prefix_nil.
      * exists [(img, c1)]. split; [done|]. apply prefix_cons, prefix_nil.
    + destruct (IH c' st1 H) as [new [Hn Hp]].
      destruct (iteration_calls _ _ _ _ _ _ _ _ Ei) as [Hc|[c1 [_ [Hc _]]]].
      * exfalso. by apply (iteration_success_calls _ _ _ _ _ _ _ _ Ei).
      * exists ((img, c1) :: new). rewrite Hn, Hc, <-app_assoc. split; [done|].
        by apply prefix_cons.
Qed.

Lemma loop_app_error cwd run_inference pairs more config st e st' :
  loop cwd run_inference config pairs st = (inl e, st') ->
  loop cwd run_inference config (pairs ++ more) st = (inl e, st').
Proof.
  revert config st. induction pairs as [|[img seg] pairs IH]; intros config st H; simpl in *.
  - discriminate.
  - unfold bind in *.
    destruct (iteration cwd run_inference config img seg st) as [[e'|c'] st1]; [done|].
    by apply IH.
Qed.

Lemma fmap_fst_zip {A B} (l : list A) (k : list B) :
  length l = length k -> (zip l k).*1 = l.
Proof. intros H. apply fst_zip. lia. Qed.

Lemma keeps_state_adds {A} (m : M A) : keeps_state m -> only_adds_dirs m.
Proof.
  intros H st r st' E. specialize (H st). rewrite E in H. simpl in H. subst. done.
Qed.

Lemma bind_adds {A B} (m : M A) (k : A -> M B) :
  only_adds_dirs m -> (forall a, only_adds_dirs (k a)) -> only_adds_dirs (bind m k).
Proof.
  intros Hm Hk st r st' E. unfold bind in E.
  destruct (m st) as [[e|a] st1] eqn:Em.
  - inversion E; subst. eauto.
  - destruct (Hm _ _ _ Em) as (H1 & H2 & H3).
    destruct (Hk a _ _ _ E) as (H4 & H5 & H6).
    split; [congruence|]. split; [set_solver|congruence].
Qed.

Lemma catch_adds m : only_adds_dirs m -> only_adds_dirs (catch_file_exists m).
Proof.
  intros Hm st r st' E. unfold catch_file_exists in E.
  destruct (m st) as [[[]|] st1] eqn:Em; inversion E; subst; eauto.
Qed.

Lemma mkdir_adds p : only_adds_dirs (on_fs (mkdir p)).
Proof.
  intros st r st' E. unfold on_fs in E.
  destruct (mkdir p (st_fs st)) as [e|fs'] eqn:Hm; inversion E; subst; [done|].
  unfold mkdir in Hm. repeat case_match; simplify_eq/=.
  split; [done|]. split; [set_solver|done].
Qed.

Create HintDb adds.
#[export] Hint Resolve keeps_state_adds catch_adds mkdir_adds
  ret_keeps_state raise_keeps_state get_fs_keeps_state lift_keeps_state : adds.

Ltac adds_if := repeat (intros; match goal with
  | |- only_adds_dirs (if ?b then _ else _) => destruct b
  | |- only_adds_dirs (match ?x with _ => _ end) => destruct x
  | |- only_adds_dirs (bind _ _) => apply bind_adds
  | |- _ => eauto 3 with adds
  end).

Lemma makedirs_fuel_adds n name : only_adds_dirs (makedirs_fuel n name).
Proof.
  revert name. induction n as [|n IH]; intros name; simpl.
  - apply keeps_state_adds, raise_keeps_state.
  - adds_if.
Qed.

Lemma makedirs_adds name : only_adds_dirs (makedirs name).
Proof. apply makedirs_fuel_adds. Qed.

Lemma prepare_adds cwd config seg : only_adds_dirs (prepare cwd config seg).
Proof. unfold prepare. adds_if. apply makedirs_adds. Qed.

(** With a last component other than [""] and ["."], [os.makedirs] ends in
    [mkdir(name)]. *)
Lemma makedirs_ends_in_mkdir name st st' :
  PosixPath.basename name <> "" -> PosixPath.basename name <> "." ->
  makedirs name st = (inr tt, st') -> name ∈ fs_dirs (st_fs st').
Proof.
  intros Hb Hd. unfold makedirs. cbn [makedirs_fuel].
  apply String.eqb_neq in Hb. rewrite Hb.
  apply String.eqb_neq in Hd.
  unfold bind at 1, get_fs.
  set (h := PosixPath.dirname name).
  set (t := PosixPath.basename name) in *.
  unfold bind at 1.
  destruct (negb (String.eqb h "") && negb (String.eqb t "") && negb (path_exists (st_fs st) h)).
  - unfold bind at 1.
    destruct (catch_file_exists _ st) as [[e|[]] st1]; [discriminate|].
    rewrite Hd. unfold ret. intros H. unfold on_fs in H.
    destruct (mkdir name (st_fs st1)) as [e|fs'] eqn:Hm; inversion H; subst.
    unfold mkdir in Hm. repeat case_match; simplify_eq/=. set_solver.
  - unfold ret. intros H. unfold on_fs in H.
    destruct (mkdir name (st_fs st)) as [e|fs'] eqn:Hm; inversion H; subst.
    unfold mkdir in Hm. repeat case_match; simplify_eq/=. set_solver.
Qed.


End ExtraFacts.

Module Extras.
Import Facts ExtraFacts.
Local Open Scope list_scope.

(** X: the finalizer recovers the stem and extension the naming
    convention needs for every [.nii.gz] input, and for every [.nii] input
    whose stem does not contain ["gz"]: the expected file is
    [<out_folder>/<stem>/<stem>_<postfix><ext>]. *)
Theorem expected_output_stem (out_folder img stem postfix : string) :
  (PosixPath.basename img = stem +:+ ".nii.gz" ->
   expected_output out_folder img postfix =
   (stem, PosixPath.join out_folder [stem; stem +:+ "_" +:+ postfix +:+ ".nii.gz"])) /\
  (PosixPath.basename img = stem +:+ ".nii" ->
   PyStr.contains "gz" stem = false ->
   expected_output out_folder img postfix =
   (stem, PosixPath.join out_folder [stem; stem +:+ "_" +:+ postfix +:+ ".nii"])).
Proof.
  split.
  - intros Hb. unfold expected_output. rewrite Hb.
    rewrite (contains_append_r "gz" stem ".nii.gz") by done.
    pose proof (drop_end_append stem ".nii.gz") as Hd.
    change (String.length ".nii.gz") with 7 in Hd. by rewrite Hd.
  - intros Hb Hg. unfold expected_output. rewrite Hb.
    rewrite contains_gz_nii by done.
    pose proof (drop_end_append stem ".nii") as Hd.
    change (String.length ".nii") with 4 in Hd. by rewrite Hd.
Qed.

Lemma expected_output_stem_witness :
  expected_output "out" "data/sub-01_T2w.nii" "seg" =
  ("sub-01_T2w", "out/sub-01_T2w/sub-01_T2w_seg.nii").
Proof.
  exact (proj2 (expected_output_stem "out" "data/sub-01_T2w.nii" "sub-01_T2w" "seg")
    eq_refl eq_refl).
Defined.

(** X: the inputs that reached [run_inference] are, in order, a prefix of
    [input_names] (no input is skipped), and processing stops at the first
    failure: a failing run ends the same way, with the same state, when
    further pairs follow in the lists. *)
Theorem calls_prefix_of_inputs pkg_dir cwd yaml_load run_inference cf ins segs st r st' :
  st_calls st = [] ->
  main pkg_dir cwd yaml_load run_inference cf ins segs st = (r, st') ->
  (st_calls st').*1 `prefix_of` ins /\
  (forall e ins2 segs2, r = inl e ->
   length ins = length segs -> length ins2 = length segs2 ->
   main pkg_dir cwd yaml_load run_inference cf (ins ++ ins2) (segs ++ segs2) st =
   (inl e, st')).
Proof.
  intros H0 H. split.
  - unfold main, bind at 1 in H.
    destruct (load_config pkg_dir yaml_load cf st) as [[e|cfg] st1] eqn:Hc;
      pose proof (load_config_unchanged _ _ _ _ _ _ Hc) as ->.
    + inversion H; subst. rewrite H0. apply prefix_nil.
    + unfold bind in H. destruct (Nat.eqb_spec (length ins) (length segs)) as [Hl|].
      * destruct (loop_calls_prefix _ _ _ _ _ _ _ H) as [new [Hn Hp]].
        rewrite Hn, H0. simpl. by rewrite fmap_fst_zip in Hp.
      * inversion H; subst. rewrite H0. apply prefix_nil.
  - intros e ins2 segs2 -> Hl Hl2. revert H. unfold main, bind at 1 3.
    destruct (load_config pkg_dir yaml_load cf st) as [[e'|cfg] st1]; [done|].
    unfold bind. rewrite !length_app, Hl, Hl2, !Nat.eqb_refl. simpl.
    intros Hloop. rewrite (zip_with_app pair ins ins2 segs segs2 Hl).
    by apply loop_app_error.
Qed.

(** X: an error raised by [run_inference] ends the run with that same
    exception: the finalizer does not run (the file system is as the
    routine left it) and no later input is processed. *)
Theorem inference_error_propagates pkg_dir cwd yaml_load run_inference cf img seg ins segs
    st cfg0 st0 d c1 st1 e c' fs2 :
  load_config pkg_dir yaml_load cf st = (inr cfg0, st0) ->
  length ins = length segs ->
  prepare cwd cfg0 seg st = (inr (d, c1), st1) ->
  run_inference img c1 (st_fs st1) = (inl e, (c', fs2)) ->
  main pkg_dir cwd yaml_load run_inference cf (img :: ins) (seg :: segs) st =
  (inl e, mkSt fs2 (st_calls st1 ++ [(img, c1)])).
Proof.
  intros Hc Hl Hp Hr. pose proof (load_config_unchanged _ _ _ _ _ _ Hc) as ->.
  unfold main, bind at 1. rewrite Hc. unfold bind at 1. simpl.
  rewrite (proj2 (Nat.eqb_eq _ _) Hl). simpl.
  unfold bind at 1, iteration, bind at 1. rewrite Hp.
  unfold bind at 1, call_inference. by rewrite Hr.
Qed.

(** X: the configuration step's edge cases, once the file exists: a parse
    error raises the loader's error, a document that is not a mapping (an
    empty file loads as [None]) raises [TypeError], a missing [inference]
    or [model_to_load] key raises [KeyError] for that key. *)
Theorem load_config_errors pkg_dir yaml_load cf st :
  let cf' := effective_config_file pkg_dir cf in
  isfile (st_fs st) cf' = true ->
  (yaml_load (st_fs st) cf' = None ->
   load_config pkg_dir yaml_load cf st = (inl YAMLError, st)) /\
  (forall loaded, yaml_load (st_fs st) cf' = Some loaded -> (forall d, loaded <> YMap d) ->
   load_config pkg_dir yaml_load cf st = (inl TypeError, st)) /\
  (forall d, yaml_load (st_fs st) cf' = Some (YMap d) -> Dict.lookup d "inference" = None ->
   load_config pkg_dir yaml_load cf st = (inl (KeyError "inference"), st)) /\
  (forall d inf, yaml_load (st_fs st) cf' = Some (YMap d) ->
   Dict.lookup d "inference" = Some inf -> (forall d', inf <> YMap d') ->
   load_config pkg_dir yaml_load cf st = (inl TypeError, st)) /\
  (forall d d', yaml_load (st_fs st) cf' = Some (YMap d) ->
   Dict.lookup d "inference" = Some (YMap d') -> Dict.lookup d' "model_to_load" = None ->
   load_config pkg_dir yaml_load cf st = (inl (KeyError "model_to_load"), st)).
Proof.
  intros cf' Hf.
  unfold load_config, bind, get_fs, lift, ret, raise. fold cf'. rewrite Hf. simpl.
  split; [|split; [|split; [|split]]].
  - intros Hy. by rewrite Hy.
  - intros loaded Hy Hn. rewrite Hy. destruct loaded; simpl; try done.
    exfalso. by apply (Hn d).
  - intros d Hy Hi. rewrite Hy. simpl. by rewrite Hi.
  - intros d inf Hy Hi Hn. rewrite Hy. simpl. rewrite Hi.
    destruct inf; simpl; try done. exfalso. by apply (Hn d0).
  - intros d d' Hy Hi Hm. rewrite Hy. simpl. rewrite Hi. simpl. by rewrite Hm.
Qed.

(** X: a successful finalizer, when the expected output is a regular file,
    changes exactly two things: that file is now at [seg] (replacing any
    file there), and the intermediate folder [<out_folder>/<stem>] is gone. *)
Theorem finalize_frame config outp out_folder img seg postfix stem p st st' :
  getitem config "output" = inr outp ->
  getitem outp "out_postfix" = inr (YStr postfix) ->
  expected_output out_folder img postfix = (stem, p) ->
  isfile (st_fs st) p = true ->
  finalize config out_folder img seg st = (inr tt, st') ->
  fs_files (st_fs st') = {[seg]} ∪ (fs_files (st_fs st) ∖ {[p]}) /\
  fs_dirs (st_fs st') = fs_dirs (st_fs st) ∖ {[PosixPath.join out_folder [stem]]} /\
  st_calls st' = st_calls st.
Proof.
  intros Ho Hp He Hf H.
  unfold finalize, bind, lift, get_fs, ret, raise, on_fs in H.
  rewrite Ho, Hp in H. simpl in H. rewrite He in H.
  assert (Hx : path_exists (st_fs st) p = true) by (unfold path_exists; by rewrite Hf).
  rewrite Hx in H. simpl in H.
  pose proof Hf as Hin. unfold isfile in Hin. apply bool_decide_eq_true in Hin.
  unfold rename in H. rewrite Hx, Hf in H.
  destruct (String.eqb_spec p seg) as [<-|Hne]; simpl in H.
  - rewrite Hx in H. cbn [st_fs st_calls] in H.
    destruct (rmdir (PosixPath.join2 out_folder stem) (st_fs st)) as [|fs2] eqn:Hr;
      [discriminate|].
    inversion H; subst. simpl. unfold rmdir in Hr.
    repeat case_match; simplify_eq/=. split; [|done]. apply leibniz_equiv. intros x. rewrite elem_of_union, elem_of_difference, elem_of_singleton. destruct (decide (x = p)); naive_solver.
  - destruct (isdir (st_fs st) seg); [discriminate|].
    destruct (check_parent (st_fs st) seg); [discriminate|]. simpl in H.
    assert (Hs : path_exists (mkFS ({[seg]} ∪ fs_files (st_fs st) ∖ {[p]}) (fs_dirs (st_fs st))) seg = true).
    { unfold path_exists, isfile. simpl. rewrite bool_decide_eq_true_2; [done|set_solver]. }
    rewrite Hs in H. cbn [st_fs st_calls] in H.
    destruct (rmdir _ _) as [|fs2] eqn:Hr; [discriminate|].
    inversion H; subst. simpl. unfold rmdir in Hr.
    repeat case_match; simplify_eq/=. done.
Qed.


(** X: [os.makedirs] only creates directories: on success or failure the
    files and the trace are unchanged and no directory disappears; on
    success, for a last component other than [""] and ["."], the folder
    itself is a directory. *)
Theorem makedirs_creates_folder name st r st' :
  makedirs name st = (r, st') ->
  fs_files (st_fs st') = fs_files (st_fs st) /\
  fs_dirs (st_fs st) ⊆ fs_dirs (st_fs st') /\
  st_calls st' = st_calls st /\
  (r = inr tt -> PosixPath.basename name <> "" -> PosixPath.basename name <> "." ->
   name ∈ fs_dirs (st_fs st')).
Proof.
  intros H. destruct (makedirs_adds name st r st' H) as (H1 & H2 & H3).
  split; [done|]. split; [done|]. split; [done|].
  intros -> Hb Hd. by apply (makedirs_ends_in_mkdir name st st').
Qed.

(** X: after a successful preparation the output folder exists (for a last
    component other than [""] and ["."]), while files and the trace are
    unchanged and no directory disappears. *)
Theorem prepare_out_folder_exists cwd config seg st d c1 st' :
  prepare cwd config seg st = (inr (d, c1), st') ->
  PosixPath.basename d <> "" -> PosixPath.basename d <> "." ->
  path_exists (st_fs st') d = true /\
  fs_files (st_fs st') = fs_files (st_fs st) /\
  fs_dirs (st_fs st) ⊆ fs_dirs (st_fs st') /\
  st_calls st' = st_calls st.
Proof.
  intros H Hb Hd.
  destruct (prepare_adds cwd config seg st _ _ H) as (H1 & H2 & H3).
  split; [|done].
  destruct (prepare_result _ _ _ _ _ _ _ H) as [-> _].
  unfold prepare, bind at 1, get_fs in H.
  destruct (path_exists (st_fs st) (out_folder_of cwd seg)) eqn:Hx; simpl in H.
  - unfold bind at 1, ret at 1 in H.
    unfold bind, lift, ret, raise in H. repeat case_match; simplify_eq/=. done.
  - unfold bind at 1 in H.
    destruct (makedirs (out_folder_of cwd seg) st) as [[e|[]] st1] eqn:Hm;
      [discriminate|].
    pose proof (makedirs_ends_in_mkdir _ _ _ Hb Hd Hm) as Hin.
    unfold bind, lift, ret, raise in H. repeat case_match; simplify_eq/=.
    unfold path_exists, isdir. rewrite orb_true_iff. right.
    by apply bool_decide_eq_true.
Qed.

Lemma calls_prefix_of_inputs_witness :
  (st_calls (snd gz_name_run)).*1 = ["case1.nii.gz"; "sub-gz01_T2w.nii"] /\
  (st_calls (snd gz_name_run)).*1 `prefix_of`
    ["case1.nii.gz"; "sub-gz01_T2w.nii"; "case3.nii"] /\
  main "/pkg" "/home" test_yaml stub_inference (Some "cfg.yml")
    (["case1.nii.gz"; "sub-gz01_T2w.nii"; "case3.nii"] ++ ["case4.nii"])
    (["out/case1_mask.nii.gz"; "out/sub01_mask.nii"; "out/case3_mask.nii"] ++
     ["out/case4_mask.nii"]) test_st =
  (inl (FileNotFoundError "Network output file out/sub-gz01_/sub-gz01__seg.nii.gz not found, check if the segmentation pipeline has failed"),
   snd gz_name_run).
Proof.
  destruct (calls_prefix_of_inputs "/pkg" "/home" test_yaml stub_inference (Some "cfg.yml")
    ["case1.nii.gz"; "sub-gz01_T2w.nii"; "case3.nii"]
    ["out/case1_mask.nii.gz"; "out/sub01_mask.nii"; "out/case3_mask.nii"] test_st
    (fst gz_name_run) (snd gz_name_run) eq_refl (surjective_pairing gz_name_run))
    as [Hp Hs].
  split; [vm_compute; reflexivity|]. split; [exact Hp|].
  apply Hs; vm_compute; reflexivity.
Defined.

Lemma inference_error_propagates_witness :
  main "/pkg" "/home" test_yaml failing_inference (Some "cfg.yml")
    ["a.nii.gz"; "b.nii"] ["out/a_mask.nii.gz"; "out/b_mask.nii"] test_st =
  (inl (InferenceError "a.nii.gz"),
   mkSt (mkFS {["cfg.yml"]} {["/pkg"; "/home"; "out"]})
     [("a.nii.gz", YMap [("inference", YMap [("model_to_load",
         YStr "/pkg/models/checkpoint_dynUnet_DiceXent.pt")]);
       ("output", output_entry "out")])]).
Proof.
  apply (inference_error_propagates "/pkg" "/home" test_yaml failing_inference
    (Some "cfg.yml") "a.nii.gz" "out/a_mask.nii.gz" ["b.nii"] ["out/b_mask.nii"] test_st
    cfg_loaded test_st "out"
    (YMap [("inference", YMap [("model_to_load",
         YStr "/pkg/models/checkpoint_dynUnet_DiceXent.pt")]);
       ("output", output_entry "out")])
    (mkSt (mkFS {["cfg.yml"]} {["/pkg"; "/home"; "out"]}) [])
    (InferenceError "a.nii.gz")
    (YMap [("inference", YMap [("model_to_load",
         YStr "/pkg/models/checkpoint_dynUnet_DiceXent.pt")]);
       ("output", output_entry "out")])
    (mkFS {["cfg.yml"]} {["/pkg"; "/home"; "out"]}));
  vm_compute; reflexivity.
Defined.

Lemma load_config_errors_witness :
  load_config "/pkg" empty_yaml (Some "cfg.yml") test_st = (inl TypeError, test_st).
Proof.
  exact (proj1 (proj2 (load_config_errors "/pkg" empty_yaml (Some "cfg.yml") test_st
    eq_refl)) YNone eq_refl (fun d H => ltac:(discriminate H))).
Defined.

Lemma finalize_frame_witness :
  fs_files (st_fs (snd finalize_run)) =
    {["out/case1_mask.nii.gz"]} ∪ (fs_files fs_case1 ∖ {["out/case1/case1_seg.nii.gz"]}) /\
  fs_dirs (st_fs (snd finalize_run)) = fs_dirs fs_case1 ∖ {["out/case1"]} /\
  st_calls (snd finalize_run) = [].
Proof.
  apply (finalize_frame cfg_out (output_entry "out") "out" "case1.nii.gz"
    "out/case1_mask.nii.gz" "seg" "case1" "out/case1/case1_seg.nii.gz"
    (mkSt fs_case1 []) (snd finalize_run)); vm_compute; reflexivity.
Defined.


Lemma makedirs_creates_folder_witness :
  makedirs_run = (inr tt, mkSt (mkFS ∅ {["a"; "a/b"; "a/b/c"]}) []) /\
  "a/b/c" ∈ fs_dirs (st_fs (snd makedirs_run)).
Proof.
  split; [vm_compute; reflexivity|].
  assert (E : makedirs "a/b/c" (mkSt (mkFS ∅ ∅) []) = (fst makedirs_run, snd makedirs_run))
    by (vm_compute; reflexivity).
  apply (makedirs_creates_folder "a/b/c" _ (fst makedirs_run) (snd makedirs_run) E);
  [vm_compute; reflexivity|discriminate|discriminate].
Defined.

Lemma prepare_out_folder_exists_witness :
  prepare_run = (inr ("out/a", YMap [("inference", YMap [("model_to_load",
      YStr "/pkg/models/checkpoint_dynUnet_DiceXent.pt")]);
    ("output", output_entry "out/a")]), mkSt (mkFS ∅ {["out"; "out/a"]}) []) /\
  path_exists (st_fs (snd prepare_run)) "out/a" = true.
Proof.
  split; [vm_compute; reflexivity|].
  apply (prepare_out_folder_exists "/home" cfg_loaded "out/a/x_mask.nii"
    (mkSt fs_out []) "out/a" (YMap [("inference", YMap [("model_to_load",
      YStr "/pkg/models/checkpoint_dynUnet_DiceXent.pt")]);
    ("output", output_entry "out/a")]) (snd prepare_run));
  [vm_compute; reflexivity|discriminate|discriminate].
Defined.

End Extras.
